(** * annotate_vcf_with_denovo_lls.py: a shallow embedding

    The script merges a HipSTR genotype VCF (the "gt" reader) with a
    DenovoFinder log-likelihood VCF (the "ll" reader).  PyVCF readers are
    modelled as their header (sample names, FORMAT registry, an ordered
    dict kept as an association list) plus the list of records they yield.
    A record's FORMAT string is kept already split on ':' (the script only
    ever splits it and re-joins the merged list).  Python exceptions are an
    inductive type; the output stream is the list of events written to
    stdout. *)

From Stdlib Require Import String List ZArith Bool Lia.
Import ListNotations.
Local Open Scope string_scope.
Local Open Scope list_scope.

(** ** Data model *)

(** PyVCF's [_Format] entry: its Type and Number. *)
Record FormatInfo := mkFormat { fmt_type : string; fmt_num : option Z }.

(** A per-sample call: the sample name and its values, aligned with the
    FORMAT field list of the record that holds it. *)
Record Call := mkCall { sample : string; data : list string }.

(** A PyVCF [_Record]; [ALT] holds [str(alt)] of each alternate allele,
    [ID] is [None] for '.'. *)
Record VcfRecord := mkRecord {
  CHROM : string;
  POS : Z;
  ID : option string;
  REF : string;
  ALT : list string;
  FORMAT : list string;
  samples : list Call
}.

(** A PyVCF [Reader]: header samples, the FORMAT registry and the records. *)
Record Reader := mkReader {
  reader_samples : list string;
  formats : list (string * FormatInfo);
  records : list VcfRecord
}.

(** Exceptions that end the run.  [exit(msg)] raises [SystemExit]. *)
Inductive PyExc :=
| SystemExit (msg : string)
| StopIteration
| KeyError (key : string)
| AttributeError (key : string)
| ValueError (msg : string).

(** What the script writes to stdout: the header, written when
    [vcf.Writer] is constructed, then one line per emitted record
    (with the [_types] of its calldata class). *)
Inductive Event :=
| WriteHeader (fmts : list (string * FormatInfo)) (smps : list string)
| WriteRecord (r : VcfRecord) (types : list FormatInfo).

(** ** A small error monad *)

Inductive result (A : Type) :=
| Ok (a : A)
| Err (e : PyExc).
Arguments Ok {A} a.
Arguments Err {A} e.

Definition bind {A B} (m : result A) (k : A -> result B) : result B :=
  match m with Ok a => k a | Err e => Err e end.

Notation "x <- m ;; k" := (bind m (fun x => k))
  (at level 61, m at next level, right associativity).

Fixpoint mapM {A B} (f : A -> result B) (l : list A) : result (list B) :=
  match l with
  | [] => Ok []
  | x :: xs => y <- f x ;; ys <- mapM f xs ;; Ok (y :: ys)
  end.

(** ** Python helpers *)

(** [x in l] for a list of strings. *)
Definition str_in (x : string) (l : list string) : bool :=
  existsb (String.eqb x) l.

Definition keys (d : list (string * FormatInfo)) : list string := map fst d.

(** [d[k]] on an ordered dict. *)
Fixpoint dict_get (d : list (string * FormatInfo)) (k : string) : result FormatInfo :=
  match d with
  | [] => Err (KeyError k)
  | (k', v) :: d' => if String.eqb k k' then Ok v else dict_get d' k
  end.

Fixpoint index_of (k : string) (l : list string) : option nat :=
  match l with
  | [] => None
  | x :: l' =>
      if String.eqb k x then Some 0
      else match index_of k l' with Some i => Some (S i) | None => None end
  end.

(** [call[key]] on a PyVCF [_Call]: [getattr(call.data, key)], where the
    calldata namedtuple has the record's FORMAT fields. *)
Definition getitem (fields : list string) (c : Call) (key : string) : result string :=
  match index_of key fields with
  | None => Err (AttributeError key)
  | Some i =>
      match nth_error (data c) i with
      | Some v => Ok v
      | None => Err (AttributeError key)
      end
  end.

(** [record.genotype(name)] *)
Definition genotype (r : VcfRecord) (name : string) : result Call :=
  match find (fun c => String.eqb (sample c) name) (samples r) with
  | Some c => Ok c
  | None => Err (KeyError name)
  end.

Fixpoint has_dup (l : list string) : bool :=
  match l with
  | [] => false
  | x :: l' => str_in x l' || has_dup l'
  end.

(** The scan of [collections.namedtuple] over the field names: the first
    name already in [seen]. *)
Fixpoint first_dup (seen : list string) (l : list string) : option string :=
  match l with
  | [] => None
  | x :: l' => if str_in x seen then Some x else first_dup (x :: seen) l'
  end.

(** [vcf.model.make_calldata_tuple(fields)] builds
    [collections.namedtuple('calldata', fields)], which raises
    [ValueError('Encountered duplicate field name: %r' % name)] for the
    first repeated name.  (Its identifier checks are not modelled: PyVCF
    already built a namedtuple from each record's own FORMAT names.) *)
Definition make_calldata_tuple (fields : list string) : result (list string) :=
  match first_dup [] fields with
  | Some name =>
      Err (ValueError (String.append "Encountered duplicate field name: '"
                                     (String.append name "'")))
  | None => Ok fields
  end.

(** ** records_match (lines 10-18) *)

Fixpoint alts_match (a b : list string) : result unit :=
  match a, b with
  | x :: a', y :: b' =>
      if negb (String.eqb x y)
      then Err (SystemExit "ERROR: Record alternate alleles don't match")
      else alts_match a' b'
  | _, _ => Ok tt
  end.

Definition opt_str_eqb (a b : option string) : bool :=
  match a, b with
  | Some x, Some y => String.eqb x y
  | None, None => true
  | _, _ => false
  end.

Definition records_match (rec_a rec_b : VcfRecord) : result unit :=
  if negb (String.eqb (CHROM rec_a) (CHROM rec_b))
  then Err (SystemExit "ERROR: Record chromosomes don't match") else
  if negb (Z.eqb (POS rec_a) (POS rec_b))
  then Err (SystemExit "ERROR: Record positions don't match") else
  if negb (opt_str_eqb (ID rec_a) (ID rec_b))
  then Err (SystemExit "ERROR: Record IDs don't match") else
  if negb (String.eqb (REF rec_a) (REF rec_b))
  then Err (SystemExit "ERROR: Record REF alleles don't match") else
  if negb (Nat.eqb (length (ALT rec_a)) (length (ALT rec_b)))
  then Err (SystemExit "ERROR: Record alternate alleles don't match") else
  alts_match (ALT rec_a) (ALT rec_b).

(** ** Building the combined record (lines 62-110) *)

Definition excluded_fields : list string := ["GL"; "PL"; "PHASEDGL"].

(** The value of one merged field for one sample (lines 100-104). *)
Definition resolve_field (gt_fields denovo_fields : list string) (s : Call)
    (ll_sample : option Call) (key_in : string * bool) : result string :=
  let '(key, in_gt) := key_in in
  if in_gt then getitem gt_fields s key
  else match ll_sample with
       | None => Ok "."
       | Some c => getitem denovo_fields c key
       end.

Definition combine_record (keep_LLs : bool)
    (gt_formats ll_formats : list (string * FormatInfo))
    (all_ll_samples : list string) (gt_record ll_record : VcfRecord)
    : result (VcfRecord * list FormatInfo) :=
  let gt_fields := FORMAT gt_record in
  let denovo_fields := FORMAT ll_record in
  if negb (Nat.eqb (length (gt_fields ++ denovo_fields))
                   (length gt_fields + length denovo_fields))
  then Err (SystemExit "ERROR: Duplicate FORMAT fields in the two VCFs") else
  let fields :=
    if keep_LLs then gt_fields ++ denovo_fields
    else filter (fun x => negb (str_in x excluded_fields)) (gt_fields ++ denovo_fields) in
  samp_fields <- make_calldata_tuple fields ;;
  let in_gt := map (fun fmt => str_in fmt gt_fields) samp_fields in
  types <- mapM (fun fmt => if str_in fmt gt_fields then dict_get gt_formats fmt
                            else dict_get ll_formats fmt) samp_fields ;;
  new_samples <- mapM (fun s =>
      ll_sample <- (if str_in (sample s) all_ll_samples
                    then c <- genotype ll_record (sample s) ;; Ok (Some c)
                    else Ok None) ;;
      sampdat <- mapM (resolve_field gt_fields denovo_fields s ll_sample)
                      (combine samp_fields in_gt) ;;
      Ok (mkCall (sample s) sampdat)) (samples gt_record) ;;
  Ok ({| CHROM := CHROM gt_record; POS := POS gt_record; ID := ID gt_record;
         REF := REF gt_record; ALT := ALT gt_record;
         FORMAT := fields; samples := new_samples |}, types).

(** ** The pairing loop (lines 51-116)

    [ll_record] is the one-slot buffer, [lls] what the ll reader has not
    yet yielded.  [ll_vcf_reader.next()] on an exhausted reader raises
    [StopIteration], which the [for] loop over the gt reader does not
    catch. *)

Definition refill (ll_record : option VcfRecord) (lls : list VcfRecord)
    : option (VcfRecord * list VcfRecord) :=
  match ll_record with
  | Some r => Some (r, lls)
  | None => match lls with [] => None | r :: lls' => Some (r, lls') end
  end.

Definition skip_record (gt_record ll_record : VcfRecord) : bool :=
  negb (String.eqb (CHROM gt_record) (CHROM ll_record))
  || (POS gt_record <? POS ll_record)%Z.

Fixpoint merge_loop (keep_LLs : bool) (gt_formats ll_formats : list (string * FormatInfo))
    (all_ll_samples : list string) (gts lls : list VcfRecord)
    (ll_record : option VcfRecord) : list Event * option PyExc :=
  match gts with
  | [] => ([], None)
  | gt_record :: gts' =>
      match refill ll_record lls with
      | None => ([], Some StopIteration)
      | Some (r, lls') =>
          if skip_record gt_record r
          then merge_loop keep_LLs gt_formats ll_formats all_ll_samples gts' lls' (Some r)
          else match records_match gt_record r with
               | Err e => ([], Some e)
               | Ok _ =>
                   match combine_record keep_LLs gt_formats ll_formats
                           all_ll_samples gt_record r with
                   | Err e => ([], Some e)
                   | Ok (out, types) =>
                       let '(evs, ex) := merge_loop keep_LLs gt_formats ll_formats
                                           all_ll_samples gts' lls' None in
                       (WriteRecord out types :: evs, ex)
                   end
               end
      end
  end.

(** ** Initialisation (lines 32-48) and main *)

(** Lines 42-45: every ll FORMAT entry is checked against, then added to,
    the gt reader's (mutated) registry. *)
Fixpoint unify_formats (gt_formats ll_formats : list (string * FormatInfo))
    : result (list (string * FormatInfo)) :=
  match ll_formats with
  | [] => Ok gt_formats
  | (k, v) :: rest =>
      if str_in k (keys gt_formats)
      then Err (SystemExit (String.append "ERROR: FORMAT field "
                              (String.append k " present in both VCFs")))
      else unify_formats (gt_formats ++ [(k, v)]) rest
  end.

Definition main (keep_LLs : bool) (gt_vcf_reader ll_vcf_reader : Reader)
    : list Event * option PyExc :=
  let all_ll_samples := reader_samples ll_vcf_reader in
  let shared := filter (fun s => str_in s (reader_samples gt_vcf_reader)) all_ll_samples in
  if Nat.eqb (length shared) 0
  then ([], Some (SystemExit "ERROR: No samples are shared between the raw VCF and the denovo VCF"))
  else
  match unify_formats (formats gt_vcf_reader) (formats ll_vcf_reader) with
  | Err e => ([], Some e)
  | Ok gt_formats =>
      let '(evs, ex) := merge_loop keep_LLs gt_formats (formats ll_vcf_reader)
                          all_ll_samples (records gt_vcf_reader)
                          (records ll_vcf_reader) None in
      (WriteHeader gt_formats (reader_samples gt_vcf_reader) :: evs, ex)
  end.

(** ** Concrete inputs *)

Definition fGT := mkFormat "String" (Some 1%Z).
Definition fInt := mkFormat "Integer" (Some 1%Z).
Definition fFloat := mkFormat "Float" (Some 1%Z).

Definition rec_gt (pos : Z) (fields : list string) (vals : list string) : VcfRecord :=
  mkRecord "chr1" pos (Some "rs1") "A" ["T"] fields [mkCall "s1" vals].

Definition ex_gt_reader : Reader :=
  mkReader ["s1"] [("GT", fGT); ("DP", fInt)]
    [rec_gt 100 ["GT"; "DP"] ["0/1"; "30"]].
Definition ex_ll_reader : Reader :=
  mkReader ["s1"] [("DNM_LL", fFloat)]
    [rec_gt 100 ["DNM_LL"] ["-2.3"]].

Example main_scenario :
  main false ex_gt_reader ex_ll_reader =
  ([WriteHeader [("GT", fGT); ("DP", fInt); ("DNM_LL", fFloat)] ["s1"];
    WriteRecord (rec_gt 100 ["GT"; "DP"; "DNM_LL"] ["0/1"; "30"; "-2.3"])
                [fGT; fInt; fFloat]], None).
Proof. reflexivity. Qed.

(** ** Helper lemmas *)

Lemma str_in_iff x l : str_in x l = true <-> In x l.
Proof.
  unfold str_in; rewrite existsb_exists; split.
  - intros [y [Hy Heq]]; apply String.eqb_eq in Heq; subst; exact Hy.
  - intros H; exists x; split; [exact H | apply String.eqb_refl].
Qed.

Lemma str_in_false x l : str_in x l = false <-> ~ In x l.
Proof.
  rewrite <- str_in_iff; destruct (str_in x l); split; congruence.
Qed.

Lemma opt_str_eqb_eq a b : opt_str_eqb a b = true <-> a = b.
Proof.
  destruct a as [x|], b as [y|]; simpl; try rewrite String.eqb_eq;
    split; congruence.
Qed.

Lemma alts_match_cases a b :
  alts_match a b = Ok tt \/ alts_match a b = Err (SystemExit "ERROR: Record alternate alleles don't match").
Proof.
  revert b; induction a as [|x a IH]; intros [|y b]; simpl; auto.
  destruct (String.eqb x y); simpl; auto.
Qed.

Lemma alts_match_ok a b :
  length a = length b -> (alts_match a b = Ok tt <-> a = b).
Proof.
  revert b; induction a as [|x a IH]; intros [|y b] Hl; simpl in *;
    try discriminate; [split; auto|].
  destruct (String.eqb x y) eqn:E; simpl.
  - apply String.eqb_eq in E; subst; rewrite IH by lia; split; congruence.
  - apply String.eqb_neq in E; split; [discriminate | congruence].
Qed.

(** The VariantKey equality that [records_match] checks. *)
Definition same_variant (a b : VcfRecord) : Prop :=
  CHROM a = CHROM b /\ POS a = POS b /\ ID a = ID b /\ REF a = REF b /\ ALT a = ALT b.

(** ** C1: records_match *)

(** C1: [records_match] returns normally exactly when chromosome, position,
    identifier, reference allele and the ordered list of alternate alleles
    are all equal; when any of them differs it raises [SystemExit] (the
    fatal pairing mismatch). *)
Theorem records_match_spec (a b : VcfRecord) :
  (same_variant a b -> records_match a b = Ok tt) /\
  (~ same_variant a b -> exists msg, records_match a b = Err (SystemExit msg)).
Proof.
  unfold records_match, same_variant.
  destruct (String.eqb (CHROM a) (CHROM b)) eqn:Ec; simpl;
    [apply String.eqb_eq in Ec | apply String.eqb_neq in Ec];
    [| split; [intros (? & _); contradiction | eauto]].
  destruct (Z.eqb (POS a) (POS b)) eqn:Ep; simpl;
    [apply Z.eqb_eq in Ep | apply Z.eqb_neq in Ep];
    [| split; [intros (_ & ? & _); contradiction | eauto]].
  destruct (opt_str_eqb (ID a) (ID b)) eqn:Ei; simpl;
    [apply opt_str_eqb_eq in Ei
    | split; [intros (_ & _ & Hi & _); apply opt_str_eqb_eq in Hi; congruence | eauto]].
  destruct (String.eqb (REF a) (REF b)) eqn:Er; simpl;
    [apply String.eqb_eq in Er | apply String.eqb_neq in Er];
    [| split; [intros (_ & _ & _ & ? & _); contradiction | eauto]].
  destruct (Nat.eqb (length (ALT a)) (length (ALT b))) eqn:El; simpl.
  - apply Nat.eqb_eq in El. split.
    + intros (_ & _ & _ & _ & Ha). apply alts_match_ok; assumption.
    + intros Hn. destruct (alts_match_cases (ALT a) (ALT b)) as [H | H]; eauto.
      exfalso; apply Hn; repeat split; try assumption.
      apply (alts_match_ok _ _ El); exact H.
  - apply Nat.eqb_neq in El. split; [intros (_ & _ & _ & _ & Ha); congruence | eauto].
Qed.

(** ** C2: the skip branch *)

(** C2: with a buffered ll record [b], a gt record on another chromosome or
    at a smaller position is skipped: the loop goes on with the next gt
    record, the same buffer and the same unread ll records, and emits
    nothing for it. *)
Theorem merge_loop_skip keep gf lf al (g b : VcfRecord) gts lls :
  (CHROM g <> CHROM b \/ (POS g < POS b)%Z) ->
  merge_loop keep gf lf al (g :: gts) lls (Some b) =
  merge_loop keep gf lf al gts lls (Some b).
Proof.
  intros H. simpl. unfold skip_record.
  replace (negb (String.eqb (CHROM g) (CHROM b)) || (POS g <? POS b)%Z) with true;
    [reflexivity|].
  destruct H as [H | H].
  - apply String.eqb_neq in H; rewrite H; reflexivity.
  - apply Z.ltb_lt in H; rewrite H, orb_true_r; reflexivity.
Qed.

Lemma merge_loop_skip_witness :
  merge_loop false [] [] [] [rec_gt 50 [] []] [] (Some (rec_gt 100 [] [])) = ([], None).
Proof.
  rewrite (merge_loop_skip false [] [] [] (rec_gt 50 [] []) (rec_gt 100 [] []) [] []);
    [reflexivity | right; simpl; lia].
Defined.

(** ** C3: a gt record past the buffered ll record is fatal *)

(** C3: a gt record on the buffered ll record's chromosome at a larger
    position is not skipped and does not advance the ll reader: it reaches
    [records_match], which exits on the position mismatch. *)
Theorem merge_loop_overshoot keep gf lf al (g b : VcfRecord) gts lls :
  CHROM g = CHROM b -> (POS b < POS g)%Z ->
  merge_loop keep gf lf al (g :: gts) lls (Some b) =
  ([], Some (SystemExit "ERROR: Record positions don't match")).
Proof.
  intros Hc Hp. simpl. unfold skip_record, records_match.
  rewrite Hc, String.eqb_refl. simpl.
  replace (POS g <? POS b)%Z with false by (symmetry; apply Z.ltb_ge; lia).
  replace (POS g =? POS b)%Z with false by (symmetry; apply Z.eqb_neq; lia).
  reflexivity.
Qed.

Lemma merge_loop_overshoot_witness :
  merge_loop false [] [] [] [rec_gt 150 [] []] [] (Some (rec_gt 100 [] [])) =
  ([], Some (SystemExit "ERROR: Record positions don't match")).
Proof.
  apply (merge_loop_overshoot false [] [] [] (rec_gt 150 [] []) (rec_gt 100 [] []) [] []);
    [reflexivity | simpl; lia].
Defined.

(** ** C4: the ll reader runs out *)

Definition ex_gt_two : Reader :=
  mkReader ["s1"] [("GT", fGT); ("DP", fInt)]
    [rec_gt 100 ["GT"; "DP"] ["0/1"; "30"]; rec_gt 200 ["GT"; "DP"] ["1/1"; "12"]].

(** C4: after the only ll record has been paired with the gt record at 100,
    the buffer is cleared; the gt record at 200 makes the loop call
    [ll_vcf_reader.next()] on an exhausted reader, and the uncaught
    [StopIteration] ends the run abnormally instead of the record being
    skipped. *)
Theorem main_ll_exhausted :
  main false ex_gt_two ex_ll_reader =
  ([WriteHeader [("GT", fGT); ("DP", fInt); ("DNM_LL", fFloat)] ["s1"];
    WriteRecord (rec_gt 100 ["GT"; "DP"; "DNM_LL"] ["0/1"; "30"; "-2.3"])
                [fGT; fInt; fFloat]], Some StopIteration).
Proof. reflexivity. Qed.

(** ** C5: the per-record duplicate FORMAT check *)

Definition ex_gt_pl : Reader :=
  mkReader ["s1"] [("GT", fGT); ("PL", fInt)]
    [rec_gt 100 ["GT"; "PL"] ["0/1"; "0,3,30"]].
Definition ex_ll_pl : Reader :=
  mkReader ["s1"] [("DNM_LL", fFloat)]
    [rec_gt 100 ["PL"; "DNM_LL"] ["0,5,50"; "-2.3"]].

(** C5: the field PL occurs in both records' FORMAT lists, yet the run
    emits a record and ends normally: the check on line 66 compares
    [len(a + b)] with [len(a) + len(b)], which are always equal. *)
Theorem main_duplicate_field_not_detected :
  main false ex_gt_pl ex_ll_pl =
  ([WriteHeader [("GT", fGT); ("PL", fInt); ("DNM_LL", fFloat)] ["s1"];
    WriteRecord (rec_gt 100 ["GT"; "DNM_LL"] ["0/1"; "-2.3"]) [fGT; fFloat]], None).
Proof. reflexivity. Qed.

(** ** C10: a stale buffer on another chromosome *)

(** C10: once the buffered ll record's chromosome differs from that of the
    current and every later gt record, the run emits nothing more and ends
    normally, whatever the ll reader still holds (it is never read). *)
Theorem merge_loop_stale_buffer keep gf lf al (b : VcfRecord) gts lls :
  Forall (fun g => CHROM g <> CHROM b) gts ->
  merge_loop keep gf lf al gts lls (Some b) = ([], None).
Proof.
  intros H; induction H as [|g gts Hg _ IH]; [reflexivity|].
  rewrite merge_loop_skip by (left; exact Hg). exact IH.
Qed.

Lemma merge_loop_stale_buffer_witness :
  merge_loop false [] [] [] [mkRecord "chr2" 5 None "A" [] [] []]
    [rec_gt 100 [] []] (Some (rec_gt 100 [] [])) = ([], None).
Proof.
  apply merge_loop_stale_buffer. constructor; [discriminate | constructor].
Defined.

(** ** C6: initialisation errors *)

Lemma unify_formats_collision llf : forall gtf,
  (exists k, In k (keys llf) /\ In k (keys gtf)) ->
  exists k, In k (keys llf) /\
    unify_formats gtf llf =
    Err (SystemExit (String.append "ERROR: FORMAT field " (String.append k " present in both VCFs"))).
Proof.
  induction llf as [|[k v] rest IH]; intros gtf [k0 [Hl Hg]]; simpl in *; [contradiction|].
  destruct (str_in k (keys gtf)) eqn:E; [exists k; auto|].
  apply str_in_false in E.
  destruct Hl as [Hl | Hl]; [subst; contradiction|].
  destruct (IH (gtf ++ [(k, v)])) as [k1 [Hk1 Heq]].
  - exists k0; split; [exact Hl|]. unfold keys; rewrite map_app, in_app_iff; left; exact Hg.
  - exists k1; split; [right; exact Hk1 | exact Heq].
Qed.

Lemma filter_none {A} (f : A -> bool) l :
  (forall x, In x l -> f x = false) -> filter f l = [].
Proof.
  induction l as [|x l IH]; intros H; simpl; [reflexivity|].
  rewrite H by (left; reflexivity). apply IH; intros y Hy; apply H; right; exact Hy.
Qed.

Lemma filter_some {A} (f : A -> bool) l x :
  In x l -> f x = true -> filter f l <> [].
Proof.
  intros Hx Hf Hn. assert (In x (filter f l)) by (apply filter_In; auto).
  rewrite Hn in H; contradiction.
Qed.

(** C6 (counterexample): when no sample is shared and a FORMAT key is
    declared by both readers, the run exits with the sample message, not
    the collision message: the sample check comes first. *)
Lemma main_init_order_counterexample :
  main false (mkReader ["s1"] [("GT", fGT)] []) (mkReader ["s2"] [("GT", fGT)] []) =
  ([], Some (SystemExit "ERROR: No samples are shared between the raw VCF and the denovo VCF")).
Proof. reflexivity. Qed.

(** C6: both initialisation errors end the run before anything is written
    to stdout (the header is written when the writer is constructed, after
    both checks): with no sample shared between the two readers the run
    exits with the empty-intersection message; with some shared sample and
    a FORMAT key declared by both readers it exits with the collision
    message for a key of the ll registry.  No record is processed in either
    case. *)
Theorem main_init_errors keep (gtr llr : Reader) :
  ((forall s, In s (reader_samples llr) -> ~ In s (reader_samples gtr)) ->
   main keep gtr llr =
   ([], Some (SystemExit "ERROR: No samples are shared between the raw VCF and the denovo VCF"))) /\
  ((exists s, In s (reader_samples llr) /\ In s (reader_samples gtr)) ->
   (exists k, In k (keys (formats llr)) /\ In k (keys (formats gtr))) ->
   exists k, In k (keys (formats llr)) /\
     main keep gtr llr =
     ([], Some (SystemExit (String.append "ERROR: FORMAT field "
                              (String.append k " present in both VCFs"))))).
Proof.
  unfold main. split.
  - intros H. rewrite filter_none; [reflexivity|].
    intros s Hs. apply str_in_false, H, Hs.
  - intros [s [Hl Hg]] Hk.
    destruct (filter (fun s => str_in s (reader_samples gtr)) (reader_samples llr)) eqn:E.
    + exfalso; revert E; apply (filter_some _ _ s Hl), str_in_iff, Hg.
    + simpl. destruct (unify_formats_collision (formats llr) (formats gtr)) as [k [Hk1 Heq]].
      * destruct Hk as [k [H1 H2]]; eauto.
      * rewrite Heq; eauto.
Qed.

Lemma main_init_errors_witness :
  main false (mkReader ["s1"] [] []) (mkReader ["s2"] [] []) =
    ([], Some (SystemExit "ERROR: No samples are shared between the raw VCF and the denovo VCF")) /\
  (exists k, In k (keys (formats (mkReader ["s1"] [("GT", fGT)] [])))
     /\ main false (mkReader ["s1"] [("GT", fGT)] []) (mkReader ["s1"] [("GT", fGT)] []) =
     ([], Some (SystemExit (String.append "ERROR: FORMAT field "
                              (String.append k " present in both VCFs"))))).
Proof.
  split.
  - apply (proj1 (main_init_errors false (mkReader ["s1"] [] []) (mkReader ["s2"] [] []))).
    simpl; intros s [Hs | []] [Hs' | []]; subst; discriminate.
  - apply (proj2 (main_init_errors false (mkReader ["s1"] [("GT", fGT)] [])
                    (mkReader ["s1"] [("GT", fGT)] []))).
    + exists "s1"; simpl; auto.
    + exists "GT"; simpl; auto.
Defined.

(** ** Records emitted by the loop *)

Lemma mapM_Forall2 {A B} (f : A -> result B) l : forall ys,
  mapM f l = Ok ys -> Forall2 (fun x y => f x = Ok y) l ys.
Proof.
  induction l as [|x l IH]; intros ys H; simpl in H.
  - inversion H; constructor.
  - destruct (f x) eqn:Ef; simpl in H; [|discriminate].
    destruct (mapM f l) eqn:El; simpl in H; [|discriminate].
    inversion H; subst; constructor; auto.
Qed.

Lemma Forall2_nth_left {A B} (R : A -> B -> Prop) l1 l2 i x :
  Forall2 R l1 l2 -> nth_error l1 i = Some x ->
  exists y, nth_error l2 i = Some y /\ R x y.
Proof.
  intros H; revert i; induction H as [|a b l1 l2 Hab _ IH]; intros [|i] Hi;
    simpl in *; try discriminate; [inversion Hi; subst; eauto | eauto].
Qed.

Lemma Forall2_nth_right {A B} (R : A -> B -> Prop) l1 l2 i y :
  Forall2 R l1 l2 -> nth_error l2 i = Some y ->
  exists x, nth_error l1 i = Some x /\ R x y.
Proof.
  intros H; revert i; induction H as [|a b l1 l2 Hab _ IH]; intros [|i] Hi;
    simpl in *; try discriminate; [inversion Hi; subst; eauto | eauto].
Qed.

Lemma combine_map_self {A B} (f : A -> B) l :
  combine l (map f l) = map (fun x => (x, f x)) l.
Proof. induction l as [|x l IH]; simpl; congruence. Qed.

Lemma refill_some buf lls r lls' :
  refill buf lls = Some (r, lls') ->
  (buf = Some r \/ In r lls) /\ (forall x, In x lls' -> In x lls).
Proof.
  destruct buf as [b|]; simpl.
  - intros H; inversion H; subst; auto.
  - destruct lls as [|x l]; intros H; inversion H; subst; simpl; auto.
Qed.

(** Every record written by the loop is [combine_record] applied to one of
    its gt records and to the buffered or a later ll record. *)
Lemma merge_loop_emitted keep gf lf al gts : forall lls buf out ty,
  In (WriteRecord out ty) (fst (merge_loop keep gf lf al gts lls buf)) ->
  exists g r, In g gts /\ (buf = Some r \/ In r lls) /\
    combine_record keep gf lf al g r = Ok (out, ty).
Proof.
  induction gts as [|g gts IH]; intros lls buf out ty H; simpl in H; [contradiction|].
  destruct (refill buf lls) as [[r lls']|] eqn:R; [|contradiction].
  destruct (refill_some _ _ _ _ R) as [Hr Hsub].
  destruct (skip_record g r).
  - destruct (IH _ _ _ _ H) as (g' & r' & Hg' & Hr' & Hc).
    exists g', r'; repeat split; [right; exact Hg' | | exact Hc].
    destruct Hr' as [Hr' | Hr']; [inversion Hr'; subst; exact Hr | right; auto].
  - destruct (records_match g r); [|contradiction].
    destruct (combine_record keep gf lf al g r) as [[out0 ty0]|] eqn:Ec; [|contradiction].
    destruct (merge_loop keep gf lf al gts lls' None) as [evs ex] eqn:Em.
    simpl in H; destruct H as [H | H].
    + inversion H; subst. exists g, r; split; [left; reflexivity | split; assumption].
    + destruct (IH lls' None out ty) as (g' & r' & Hg' & Hr' & Hc);
        [rewrite Em; exact H|].
      exists g', r'; repeat split; [right; exact Hg' | | exact Hc].
      destruct Hr' as [Hr' | Hr']; [discriminate | right; auto].
Qed.

Lemma main_emitted keep gtr llr out ty :
  In (WriteRecord out ty) (fst (main keep gtr llr)) ->
  exists gf g r, In g (records gtr) /\ In r (records llr) /\
    combine_record keep gf (formats llr) (reader_samples llr) g r = Ok (out, ty).
Proof.
  unfold main. destruct (Nat.eqb _ 0); [simpl; tauto|].
  destruct (unify_formats (formats gtr) (formats llr)) as [gf|]; [|simpl; tauto].
  destruct (merge_loop _ _ _ _ _ _ _) as [evs ex] eqn:Em.
  simpl. intros [H | H]; [discriminate|].
  destruct (merge_loop_emitted keep gf (formats llr) (reader_samples llr)
              (records gtr) (records llr) None out ty) as (g & r & Hg & Hr & Hc).
  - rewrite Em; exact H.
  - destruct Hr as [Hr | Hr]; [discriminate|]. exists gf, g, r; split; [|split]; assumption.
Qed.

(** ** Per-record facts about combine_record *)

Lemma combine_record_fields keep gf lf al g r out ty :
  combine_record keep gf lf al g r = Ok (out, ty) ->
  FORMAT out = (if keep then FORMAT g ++ FORMAT r
                else filter (fun x => negb (str_in x excluded_fields)) (FORMAT g ++ FORMAT r)).
Proof.
  unfold combine_record. rewrite length_app, Nat.eqb_refl; simpl.
  unfold make_calldata_tuple.
  destruct (first_dup [] _); simpl; [discriminate|].
  destruct (mapM _ _); simpl; [|discriminate].
  destruct (mapM _ (samples g)); simpl; [|discriminate].
  intros H; inversion H; reflexivity.
Qed.

Lemma combine_record_samples keep gf lf al g r out ty :
  combine_record keep gf lf al g r = Ok (out, ty) ->
  length (samples out) = length (samples g) /\
  forall j s, nth_error (samples g) j = Some s ->
  exists c, nth_error (samples out) j = Some c /\ sample c = sample s /\
    length (data c) = length (FORMAT out) /\
    forall i key v, nth_error (FORMAT out) i = Some key -> nth_error (data c) i = Some v ->
      (In key (FORMAT g) -> getitem (FORMAT g) s key = Ok v) /\
      (~ In key (FORMAT g) -> ~ In (sample s) al -> v = ".") /\
      (~ In key (FORMAT g) -> In (sample s) al ->
         exists lc, genotype r (sample s) = Ok lc /\ getitem (FORMAT r) lc key = Ok v).
Proof.
  unfold combine_record. rewrite length_app, Nat.eqb_refl; simpl.
  unfold make_calldata_tuple.
  set (fields := if keep then _ else _).
  destruct (first_dup [] fields); simpl; [discriminate|].
  destruct (mapM _ fields); simpl; [|discriminate].
  destruct (mapM _ (samples g)) as [news|] eqn:Hs; simpl; [|discriminate].
  intros H; inversion H; subst; clear H; simpl.
  apply mapM_Forall2 in Hs. split; [symmetry; eapply Forall2_length; exact Hs|].
  intros j s Hj.
  destruct (Forall2_nth_left _ _ _ _ _ Hs Hj) as [c [Hc Hf]]; simpl in Hf.
  exists c; split; [exact Hc|].
  rewrite combine_map_self in Hf.
  destruct (if str_in (sample s) al then _ else _) as [ls|] eqn:Hls; simpl in Hf; [|discriminate].
  destruct (mapM _ (map _ fields)) as [sampdat|] eqn:Hd; simpl in Hf; [|discriminate].
  inversion Hf; subst; clear Hf; simpl.
  apply mapM_Forall2 in Hd.
  split; [reflexivity|].
  split; [apply Forall2_length in Hd; rewrite length_map in Hd; symmetry; exact Hd|].
  intros i key v Hk Hv.
  destruct (Forall2_nth_right _ _ _ _ _ Hd Hv) as [x [Hx Hres]].
  rewrite nth_error_map, Hk in Hx; simpl in Hx; inversion Hx; subst x; clear Hx.
  unfold resolve_field in Hres.
  destruct (str_in key (FORMAT g)) eqn:Ein.
  - apply str_in_iff in Ein. split; [intros _; exact Hres | split; intros Hn; contradiction].
  - apply str_in_false in Ein. split; [intros Hn; contradiction|].
    destruct (str_in (sample s) al) eqn:Esa.
    + apply str_in_iff in Esa.
      destruct (genotype r (sample s)) as [lc|] eqn:Eg; simpl in Hls; [|discriminate].
      inversion Hls; subst ls.
      split; [intros _ Hn; contradiction | intros _ _; exists lc; split; [reflexivity | exact Hres]].
    + apply str_in_false in Esa. inversion Hls; subst ls. inversion Hres; subst v.
      split; [intros _ _; reflexivity | intros _ Hn; contradiction].
Qed.

(** ** C7: per-sample value resolution *)

(** C7: every record the run writes comes from a gt record [pr] and an ll
    record [lr], and for each sample [s] of [pr], the output sample at the
    same place has the same name and one value per merged field: a field of
    [pr]'s FORMAT list takes [s]'s value; any other field is "." when [s] is
    not among the ll reader's samples, and otherwise takes the value of the
    same-named sample of [lr]. *)
Theorem main_sample_values keep gtr llr out ty :
  In (WriteRecord out ty) (fst (main keep gtr llr)) ->
  exists pr lr, In pr (records gtr) /\ In lr (records llr) /\
  length (samples out) = length (samples pr) /\
  forall j s, nth_error (samples pr) j = Some s ->
  exists c, nth_error (samples out) j = Some c /\ sample c = sample s /\
    length (data c) = length (FORMAT out) /\
    forall i key v, nth_error (FORMAT out) i = Some key -> nth_error (data c) i = Some v ->
      (In key (FORMAT pr) -> getitem (FORMAT pr) s key = Ok v) /\
      (~ In key (FORMAT pr) -> ~ In (sample s) (reader_samples llr) -> v = ".") /\
      (~ In key (FORMAT pr) -> In (sample s) (reader_samples llr) ->
         exists lc, genotype lr (sample s) = Ok lc /\ getitem (FORMAT lr) lc key = Ok v).
Proof.
  intros H. destruct (main_emitted _ _ _ _ _ H) as (gf & pr & lr & Hpr & Hlr & Hc).
  exists pr, lr. split; [exact Hpr | split; [exact Hlr|]].
  exact (combine_record_samples _ _ _ _ _ _ _ _ Hc).
Qed.

Lemma main_sample_values_witness :
  exists pr lr, In pr (records ex_gt_reader) /\ In lr (records ex_ll_reader) /\
  length (samples (rec_gt 100 ["GT"; "DP"; "DNM_LL"] ["0/1"; "30"; "-2.3"])) = length (samples pr) /\
  forall j s, nth_error (samples pr) j = Some s ->
  exists c, nth_error (samples (rec_gt 100 ["GT"; "DP"; "DNM_LL"] ["0/1"; "30"; "-2.3"])) j = Some c /\
    sample c = sample s /\
    length (data c) = length ["GT"; "DP"; "DNM_LL"] /\
    forall i key v, nth_error ["GT"; "DP"; "DNM_LL"] i = Some key -> nth_error (data c) i = Some v ->
      (In key (FORMAT pr) -> getitem (FORMAT pr) s key = Ok v) /\
      (~ In key (FORMAT pr) -> ~ In (sample s) (reader_samples ex_ll_reader) -> v = ".") /\
      (~ In key (FORMAT pr) -> In (sample s) (reader_samples ex_ll_reader) ->
         exists lc, genotype lr (sample s) = Ok lc /\ getitem (FORMAT lr) lc key = Ok v).
Proof.
  apply (main_sample_values false ex_gt_reader ex_ll_reader
           (rec_gt 100 ["GT"; "DP"; "DNM_LL"] ["0/1"; "30"; "-2.3"]) [fGT; fInt; fFloat]).
  vm_compute. right; left; reflexivity.
Defined.

(** ** C8: the GL/PL/PHASEDGL exclusion policy *)

(** C8: by default no written record lists GL, PL or PHASEDGL among its
    FORMAT fields; with --keep-gls a written record's FORMAT list is the
    FORMAT list of its gt record followed by that of its ll record. *)
Theorem main_exclusion_policy keep gtr llr out ty :
  In (WriteRecord out ty) (fst (main keep gtr llr)) ->
  (keep = false -> forall x, In x excluded_fields -> ~ In x (FORMAT out)) /\
  (keep = true -> exists pr lr, In pr (records gtr) /\ In lr (records llr) /\
                   FORMAT out = FORMAT pr ++ FORMAT lr).
Proof.
  intros H. destruct (main_emitted _ _ _ _ _ H) as (gf & pr & lr & Hpr & Hlr & Hc).
  apply combine_record_fields in Hc. split; intros Hk; subst keep.
  - intros x Hx Hin. rewrite Hc in Hin. apply filter_In in Hin as [_ Hn].
    apply str_in_iff in Hx. rewrite Hx in Hn. discriminate.
  - exists pr, lr; auto.
Qed.

Lemma main_exclusion_policy_witness :
  (false = false -> forall x, In x excluded_fields ->
     ~ In x (FORMAT (rec_gt 100 ["GT"; "DNM_LL"] ["0/1"; "-2.3"]))) /\
  (false = true -> exists pr lr, In pr (records ex_gt_pl) /\ In lr (records ex_ll_pl) /\
     FORMAT (rec_gt 100 ["GT"; "DNM_LL"] ["0/1"; "-2.3"]) = FORMAT pr ++ FORMAT lr).
Proof.
  apply (main_exclusion_policy false ex_gt_pl ex_ll_pl
           (rec_gt 100 ["GT"; "DNM_LL"] ["0/1"; "-2.3"]) [fGT; fFloat]).
  vm_compute. right; left; reflexivity.
Defined.

(** ** C9: running the FORMAT unification twice *)

Lemma unify_formats_ok llf : forall gtf u,
  unify_formats gtf llf = Ok u -> u = gtf ++ llf.
Proof.
  induction llf as [|[k v] rest IH]; intros gtf u H; simpl in H.
  - inversion H; rewrite app_nil_r; reflexivity.
  - destruct (str_in k (keys gtf)); [discriminate|].
    rewrite (IH _ _ H), <- app_assoc; reflexivity.
Qed.

Lemma unify_formats_disjoint llf : forall gtf,
  NoDup (keys llf) -> (forall k, In k (keys llf) -> ~ In k (keys gtf)) ->
  unify_formats gtf llf = Ok (gtf ++ llf).
Proof.
  induction llf as [|[k v] rest IH]; intros gtf Hnd Hdis; simpl.
  - rewrite app_nil_r; reflexivity.
  - inversion Hnd as [|? ? Hk Hnd']; subst.
    replace (str_in k (keys gtf)) with false
      by (symmetry; apply str_in_false, Hdis; left; reflexivity).
    rewrite IH, <- app_assoc; [reflexivity | exact Hnd'|].
    intros k' Hk' Hin. unfold keys in Hin; rewrite map_app, in_app_iff in Hin.
    destruct Hin as [Hin | [Heq | []]].
    + exact (Hdis k' (or_intror Hk') Hin).
    + simpl in Heq; subst; contradiction.
Qed.

(** C9 (counterexample): the unification extends the gt registry in place,
    so a second run against the registry the first run produced stops at
    the first ll field with the collision message. *)
Lemma unify_formats_twice_counterexample :
  unify_formats [("GT", fGT)] [("DNM_LL", fFloat)] = Ok [("GT", fGT); ("DNM_LL", fFloat)] /\
  unify_formats [("GT", fGT); ("DNM_LL", fFloat)] [("DNM_LL", fFloat)] =
    Err (SystemExit "ERROR: FORMAT field DNM_LL present in both VCFs").
Proof. split; reflexivity. Qed.

(** C9 (amended): for a gt and an ll registry with disjoint field names
    (each without repeated names, as dict keys), unification succeeds and
    yields the gt entries followed by the ll entries; running it again
    against that result returns it unchanged when the ll registry is empty
    and otherwise exits with the collision message for the first ll
    field. *)
Theorem unify_formats_rerun gtf llf :
  NoDup (keys llf) -> (forall k, In k (keys llf) -> ~ In k (keys gtf)) ->
  unify_formats gtf llf = Ok (gtf ++ llf) /\
  (llf = [] -> unify_formats (gtf ++ llf) llf = Ok (gtf ++ llf)) /\
  (forall k v rest, llf = (k, v) :: rest ->
     unify_formats (gtf ++ llf) llf =
     Err (SystemExit (String.append "ERROR: FORMAT field " (String.append k " present in both VCFs")))).
Proof.
  intros Hnd Hdis. split; [apply unify_formats_disjoint; assumption | split].
  - intros ->; reflexivity.
  - intros k v rest ->. simpl.
    replace (str_in k (keys (gtf ++ (k, v) :: rest))) with true; [reflexivity|].
    symmetry; apply str_in_iff. unfold keys; rewrite map_app, in_app_iff; right; left; reflexivity.
Qed.

Lemma unify_formats_rerun_witness :
  unify_formats [("GT", fGT)] [("DNM_LL", fFloat)] = Ok ([("GT", fGT)] ++ [("DNM_LL", fFloat)]) /\
  ([("DNM_LL", fFloat)] = [] ->
     unify_formats ([("GT", fGT)] ++ [("DNM_LL", fFloat)]) [("DNM_LL", fFloat)] =
     Ok ([("GT", fGT)] ++ [("DNM_LL", fFloat)])) /\
  (forall k v rest, [("DNM_LL", fFloat)] = (k, v) :: rest ->
     unify_formats ([("GT", fGT)] ++ [("DNM_LL", fFloat)]) [("DNM_LL", fFloat)] =
     Err (SystemExit (String.append "ERROR: FORMAT field " (String.append k " present in both VCFs")))).
Proof.
  apply (unify_formats_rerun [("GT", fGT)] [("DNM_LL", fFloat)]).
  - repeat constructor; simpl; tauto.
  - simpl; intros k [<- | []] [H | []]; discriminate.
Defined.

(** * Further properties of the script *)

(** ** records_match does not depend on argument order *)

Lemma alts_match_sym a b : alts_match a b = alts_match b a.
Proof.
  revert b; induction a as [|x a IH]; intros [|y b]; simpl; auto.
  rewrite String.eqb_sym; destruct (String.eqb y x); simpl; auto.
Qed.

Lemma opt_str_eqb_sym a b : opt_str_eqb a b = opt_str_eqb b a.
Proof. destruct a, b; simpl; auto using String.eqb_sym. Qed.

(** [records_match a b] and [records_match b a] succeed together and exit
    with the same message. *)
Theorem records_match_sym (a b : VcfRecord) :
  records_match a b = records_match b a.
Proof.
  unfold records_match.
  rewrite String.eqb_sym, Z.eqb_sym, opt_str_eqb_sym, (String.eqb_sym (REF a)),
    Nat.eqb_sym, alts_match_sym.
  reflexivity.
Qed.

(** ** Shape of the output *)

Definition is_record_event (e : Event) : Prop :=
  exists r t, e = WriteRecord r t.

Lemma merge_loop_records_only keep gf lf al gts : forall lls buf,
  Forall is_record_event (fst (merge_loop keep gf lf al gts lls buf)).
Proof.
  induction gts as [|g gts IH]; intros lls buf; simpl; [constructor|].
  destruct (refill buf lls) as [[r lls']|]; simpl; [|constructor].
  destruct (skip_record g r); [apply IH|].
  destruct (records_match g r); simpl; [|constructor].
  destruct (combine_record keep gf lf al g r) as [[out ty]|]; simpl; [|constructor].
  specialize (IH lls' None).
  destruct (merge_loop keep gf lf al gts lls' None) as [evs ex]; simpl in *.
  constructor; [exists out, ty; reflexivity | exact IH].
Qed.

(** The run writes either nothing or exactly one header, built from the gt
    FORMAT registry followed by the ll one and the gt sample names, first,
    followed only by records. *)
Theorem main_output_shape keep (gtr llr : Reader) :
  fst (main keep gtr llr) = [] \/
  exists evs, fst (main keep gtr llr) =
    WriteHeader (formats gtr ++ formats llr) (reader_samples gtr) :: evs /\
    Forall is_record_event evs.
Proof.
  unfold main. destruct (Nat.eqb _ 0); [left; reflexivity|].
  destruct (unify_formats (formats gtr) (formats llr)) as [gf|] eqn:U; [|left; reflexivity].
  apply unify_formats_ok in U; subst gf. right.
  pose proof (merge_loop_records_only keep (formats gtr ++ formats llr) (formats llr)
                (reader_samples llr) (records gtr) (records llr) None) as Hf.
  destruct (merge_loop _ _ _ _ _ _ _) as [evs ex]; simpl in *.
  exists evs; split; [reflexivity | exact Hf].
Qed.

(** ** What a written record is made of *)

Lemma merge_loop_emitted_matched keep gf lf al gts : forall lls buf out ty,
  In (WriteRecord out ty) (fst (merge_loop keep gf lf al gts lls buf)) ->
  exists g r, In g gts /\ (buf = Some r \/ In r lls) /\
    records_match g r = Ok tt /\ combine_record keep gf lf al g r = Ok (out, ty).
Proof.
  induction gts as [|g gts IH]; intros lls buf out ty H; simpl in H; [contradiction|].
  destruct (refill buf lls) as [[r lls']|] eqn:R; [|contradiction].
  destruct (refill_some _ _ _ _ R) as [Hr Hsub].
  destruct (skip_record g r).
  - destruct (IH _ _ _ _ H) as (g' & r' & Hg' & Hr' & Hm & Hc).
    exists g', r'; repeat split; [right; exact Hg' | | exact Hm | exact Hc].
    destruct Hr' as [Hr' | Hr']; [inversion Hr'; subst; exact Hr | right; auto].
  - destruct (records_match g r) as [[]|] eqn:Hm; [|contradiction].
    destruct (combine_record keep gf lf al g r) as [[out0 ty0]|] eqn:Ec; [|contradiction].
    destruct (merge_loop keep gf lf al gts lls' None) as [evs ex] eqn:Em.
    simpl in H; destruct H as [H | H].
    + inversion H; subst. exists g, r.
      split; [left; reflexivity | split; [exact Hr | split; assumption]].
    + destruct (IH lls' None out ty) as (g' & r' & Hg' & Hr' & Hm' & Hc);
        [rewrite Em; exact H|].
      exists g', r'; repeat split; [right; exact Hg' | | exact Hm' | exact Hc].
      destruct Hr' as [Hr' | Hr']; [discriminate | right; auto].
Qed.

Lemma main_emitted_matched keep gtr llr out ty :
  In (WriteRecord out ty) (fst (main keep gtr llr)) ->
  exists g r, In g (records gtr) /\ In r (records llr) /\ records_match g r = Ok tt /\
    combine_record keep (formats gtr ++ formats llr) (formats llr) (reader_samples llr) g r
    = Ok (out, ty).
Proof.
  unfold main. destruct (Nat.eqb _ 0); [simpl; tauto|].
  destruct (unify_formats (formats gtr) (formats llr)) as [gf|] eqn:U; [|simpl; tauto].
  apply unify_formats_ok in U; subst gf.
  destruct (merge_loop _ _ _ _ _ _ _) as [evs ex] eqn:Em.
  simpl. intros [H | H]; [discriminate|].
  destruct (merge_loop_emitted_matched keep (formats gtr ++ formats llr) (formats llr)
              (reader_samples llr) (records gtr) (records llr) None out ty)
    as (g & r & Hg & Hr & Hm & Hc); [rewrite Em; exact H|].
  destruct Hr as [Hr | Hr]; [discriminate|].
  exists g, r; split; [|split; [|split]]; assumption.
Qed.

Lemma records_match_same a b : records_match a b = Ok tt -> same_variant a b.
Proof.
  unfold records_match, same_variant.
  destruct (String.eqb (CHROM a) (CHROM b)) eqn:Ec; simpl; [|discriminate].
  destruct (Z.eqb (POS a) (POS b)) eqn:Ep; simpl; [|discriminate].
  destruct (opt_str_eqb (ID a) (ID b)) eqn:Ei; simpl; [|discriminate].
  destruct (String.eqb (REF a) (REF b)) eqn:Er; simpl; [|discriminate].
  destruct (Nat.eqb (length (ALT a)) (length (ALT b))) eqn:El; simpl; [|discriminate].
  apply String.eqb_eq in Ec, Er. apply Z.eqb_eq in Ep. apply opt_str_eqb_eq in Ei.
  apply Nat.eqb_eq in El. intros H. apply (alts_match_ok _ _ El) in H. tauto.
Qed.

Lemma combine_record_ok_inv keep gf lf al g r out ty :
  combine_record keep gf lf al g r = Ok (out, ty) ->
  exists news,
    out = {| CHROM := CHROM g; POS := POS g; ID := ID g; REF := REF g; ALT := ALT g;
             FORMAT := (if keep then FORMAT g ++ FORMAT r
                        else filter (fun x => negb (str_in x excluded_fields))
                               (FORMAT g ++ FORMAT r));
             samples := news |} /\
    mapM (fun fmt => if str_in fmt (FORMAT g) then dict_get gf fmt else dict_get lf fmt)
         (FORMAT out) = Ok ty.
Proof.
  unfold combine_record. rewrite length_app, Nat.eqb_refl; simpl.
  unfold make_calldata_tuple.
  destruct (first_dup [] _); simpl; [discriminate|].
  destruct (mapM _ _) as [ty0|] eqn:Ht; simpl; [|discriminate].
  destruct (mapM _ (samples g)) as [news|]; simpl; [|discriminate].
  intros H; inversion H; subst; clear H. exists news; split; [reflexivity | exact Ht].
Qed.

(** A written record carries the chromosome, position, ID, REF and ALT of
    a gt record, and these equal those of the ll record it was paired
    with. *)
Theorem main_written_variant_key keep gtr llr out ty :
  In (WriteRecord out ty) (fst (main keep gtr llr)) ->
  exists g r, In g (records gtr) /\ In r (records llr) /\
    same_variant out g /\ same_variant g r.
Proof.
  intros H. destruct (main_emitted_matched _ _ _ _ _ H) as (g & r & Hg & Hr & Hm & Hc).
  destruct (combine_record_ok_inv _ _ _ _ _ _ _ _ Hc) as [news [-> _]].
  exists g, r; split; [exact Hg | split; [exact Hr | split]].
  - unfold same_variant; simpl; tauto.
  - apply records_match_same, Hm.
Qed.

Lemma main_written_variant_key_witness :
  exists g r, In g (records ex_gt_reader) /\ In r (records ex_ll_reader) /\
    same_variant (rec_gt 100 ["GT"; "DP"; "DNM_LL"] ["0/1"; "30"; "-2.3"]) g /\
    same_variant g r.
Proof.
  apply (main_written_variant_key false ex_gt_reader ex_ll_reader
           (rec_gt 100 ["GT"; "DP"; "DNM_LL"] ["0/1"; "30"; "-2.3"]) [fGT; fInt; fFloat]).
  vm_compute. right; left; reflexivity.
Defined.

(** ** Errors raised while building a combined record *)

Lemma mapM_err {A B} (f : A -> result B) l e :
  mapM f l = Err e -> exists x, In x l /\ f x = Err e.
Proof.
  induction l as [|x l IH]; simpl; [discriminate|].
  destruct (f x) eqn:Ef; simpl; [|intros H; inversion H; subst; eauto].
  destruct (mapM f l) eqn:El; simpl; [discriminate|].
  intros H; inversion H; subst. destruct IH as [y [Hy Hf]]; eauto.
Qed.

Lemma mapM_err_of_in {A B} (f : A -> result B) l x e0 :
  In x l -> f x = Err e0 -> exists e, mapM f l = Err e.
Proof.
  intros Hx Hf. destruct (mapM f l) as [ys|] eqn:Hm; [|eauto].
  apply mapM_Forall2 in Hm. destruct (In_nth_error _ _ Hx) as [i Hi].
  destruct (Forall2_nth_left _ _ _ _ _ Hm Hi) as [y [_ Hy]]. congruence.
Qed.

Lemma dict_get_err d k e : dict_get d k = Err e -> e = KeyError k.
Proof.
  induction d as [|[k' v] d IH]; simpl; [congruence|].
  destruct (String.eqb k k'); [discriminate | exact IH].
Qed.

Lemma dict_get_missing d k : ~ In k (keys d) -> dict_get d k = Err (KeyError k).
Proof.
  induction d as [|[k' v] d IH]; simpl; intros H; [reflexivity|].
  destruct (String.eqb k k') eqn:E.
  - apply String.eqb_eq in E; subst; tauto.
  - apply IH; tauto.
Qed.

Lemma has_dup_filter f l : has_dup l = false -> has_dup (filter f l) = false.
Proof.
  induction l as [|x l IH]; simpl; intros H; [reflexivity|].
  apply orb_false_iff in H as [Hx Hl].
  destruct (f x); simpl; [|auto].
  rewrite IH by exact Hl. rewrite orb_false_r. apply str_in_false.
  intros Hin; apply filter_In in Hin as [Hin _]. apply str_in_false in Hx; contradiction.
Qed.


Lemma first_dup_none l : forall seen,
  has_dup l = false -> (forall x, In x l -> ~ In x seen) -> first_dup seen l = None.
Proof.
  induction l as [|x l IH]; intros seen Hd Hs; simpl; [reflexivity|].
  simpl in Hd; apply orb_false_iff in Hd as [Hx Hl].
  replace (str_in x seen) with false
    by (symmetry; apply str_in_false, Hs; left; reflexivity).
  apply IH; [exact Hl|]. intros y Hy [<- | Hy'].
  - apply str_in_false in Hx; contradiction.
  - exact (Hs y (or_intror Hy) Hy').
Qed.



(** Processing a paired record whose merged FORMAT list has no repeated
    name fails with [KeyError] when a merged field is missing from the
    registry it is looked up in: a field of the gt record in the (merged)
    gt registry, any other field in the ll registry. *)
Theorem combine_record_undeclared keep gf lf al g r key :
  has_dup (FORMAT g ++ FORMAT r) = false ->
  (keep = true \/ ~ In key excluded_fields) ->
  ((In key (FORMAT g) /\ ~ In key (keys gf)) \/
   (In key (FORMAT r) /\ ~ In key (FORMAT g) /\ ~ In key (keys lf))) ->
  exists k, combine_record keep gf lf al g r = Err (KeyError k).
Proof.
  intros Hd Hk Hkey. unfold combine_record. rewrite length_app, Nat.eqb_refl; simpl.
  set (fields := if keep then _ else _).
  assert (Hnd : has_dup fields = false)
    by (subst fields; destruct keep; [exact Hd | apply has_dup_filter, Hd]).
  assert (Hin : In key fields).
  { subst fields. assert (In key (FORMAT g ++ FORMAT r))
      by (apply in_app_iff; destruct Hkey as [[H _] | [H _]]; auto).
    destruct keep; [assumption|]. apply filter_In; split; [assumption|].
    destruct Hk as [Hk | Hk]; [discriminate|]. apply str_in_false in Hk.
    change (negb (str_in key excluded_fields) = true); rewrite Hk; reflexivity. }
  unfold make_calldata_tuple; rewrite (first_dup_none fields [] Hnd) by (intros x _ []); simpl.
  destruct (mapM (fun fmt => if str_in fmt (FORMAT g) then dict_get gf fmt else dict_get lf fmt)
              fields) as [ty|] eqn:Ht.
  - exfalso. destruct (mapM_err_of_in
      (fun fmt => if str_in fmt (FORMAT g) then dict_get gf fmt else dict_get lf fmt)
      fields key (KeyError key)) as [e He]; [exact Hin| |congruence].
    destruct Hkey as [[H1 H2] | [H1 [H2 H3]]].
    + apply str_in_iff in H1; rewrite H1. apply dict_get_missing, H2.
    + apply str_in_false in H2; rewrite H2. apply dict_get_missing, H3.
  - simpl. apply mapM_err in Ht as [y [_ Hy]].
    destruct (str_in y (FORMAT g)); apply dict_get_err in Hy; subst; eauto.
Qed.

Lemma combine_record_undeclared_witness :
  exists k, combine_record false [("GT", fGT)] [] ["s1"]
              (rec_gt 100 ["GT"; "DP"] ["0/1"; "30"]) (rec_gt 100 ["DNM_LL"] ["-2.3"])
            = Err (KeyError k).
Proof.
  apply (combine_record_undeclared false [("GT", fGT)] [] ["s1"]
           (rec_gt 100 ["GT"; "DP"] ["0/1"; "30"]) (rec_gt 100 ["DNM_LL"] ["-2.3"]) "DP").
  - reflexivity.
  - right; simpl; intros [H | [H | [H | []]]]; discriminate.
  - left; split; [simpl; auto | simpl; intros [H | []]; discriminate].
Defined.



(** ** Empty record streams *)

Lemma main_after_init keep gtr llr :
  (exists s, In s (reader_samples llr) /\ In s (reader_samples gtr)) ->
  NoDup (keys (formats llr)) ->
  (forall k, In k (keys (formats llr)) -> ~ In k (keys (formats gtr))) ->
  main keep gtr llr =
  let '(evs, ex) := merge_loop keep (formats gtr ++ formats llr) (formats llr)
                      (reader_samples llr) (records gtr) (records llr) None in
  (WriteHeader (formats gtr ++ formats llr) (reader_samples gtr) :: evs, ex).
Proof.
  intros [s [Hl Hg]] Hnd Hdis. unfold main.
  destruct (filter (fun s => str_in s (reader_samples gtr)) (reader_samples llr)) eqn:E.
  - exfalso; revert E; apply (filter_some _ _ s Hl), str_in_iff, Hg.
  - simpl. rewrite unify_formats_disjoint by assumption. reflexivity.
Qed.

(** With a shared sample and disjoint FORMAT registries, an empty gt VCF
    gives an output with the header only and a normal exit. *)
Theorem main_empty_gt keep gtr llr :
  (exists s, In s (reader_samples llr) /\ In s (reader_samples gtr)) ->
  NoDup (keys (formats llr)) ->
  (forall k, In k (keys (formats llr)) -> ~ In k (keys (formats gtr))) ->
  records gtr = [] ->
  main keep gtr llr = ([WriteHeader (formats gtr ++ formats llr) (reader_samples gtr)], None).
Proof.
  intros Hs Hnd Hdis He. rewrite main_after_init by assumption. rewrite He. reflexivity.
Qed.

Lemma main_empty_gt_witness :
  main false (mkReader ["s1"] [("GT", fGT)] []) ex_ll_reader =
  ([WriteHeader [("GT", fGT); ("DNM_LL", fFloat)] ["s1"]], None).
Proof.
  apply (main_empty_gt false (mkReader ["s1"] [("GT", fGT)] []) ex_ll_reader).
  - exists "s1"; simpl; auto.
  - repeat constructor; simpl; tauto.
  - simpl; intros k [<- | []] [H | []]; discriminate.
  - reflexivity.
Defined.

(** With a shared sample and disjoint FORMAT registries, an ll VCF without
    records and a gt VCF with at least one record give an output with the
    header only, and the run ends with the uncaught [StopIteration] of the
    first [ll_vcf_reader.next()]. *)
Theorem main_empty_ll keep gtr llr :
  (exists s, In s (reader_samples llr) /\ In s (reader_samples gtr)) ->
  NoDup (keys (formats llr)) ->
  (forall k, In k (keys (formats llr)) -> ~ In k (keys (formats gtr))) ->
  records llr = [] -> records gtr <> [] ->
  main keep gtr llr =
  ([WriteHeader (formats gtr ++ formats llr) (reader_samples gtr)], Some StopIteration).
Proof.
  intros Hs Hnd Hdis He Hg. rewrite main_after_init by assumption. rewrite He.
  destruct (records gtr); [contradiction | reflexivity].
Qed.

Lemma main_empty_ll_witness :
  main false ex_gt_reader (mkReader ["s1"] [("DNM_LL", fFloat)] []) =
  ([WriteHeader [("GT", fGT); ("DP", fInt); ("DNM_LL", fFloat)] ["s1"]], Some StopIteration).
Proof.
  apply (main_empty_ll false ex_gt_reader (mkReader ["s1"] [("DNM_LL", fFloat)] [])).
  - exists "s1"; simpl; auto.
  - repeat constructor; simpl; tauto.
  - simpl; intros k [<- | []] [H | [H | []]]; discriminate.
  - reflexivity.
  - discriminate.
Defined.

(** ** The duplicate-FORMAT exit is never taken *)

Definition duplicate_exit : PyExc :=
  SystemExit "ERROR: Duplicate FORMAT fields in the two VCFs".

Lemma getitem_err fields c key e : getitem fields c key = Err e -> e = AttributeError key.
Proof.
  unfold getitem. destruct (index_of key fields); [|congruence].
  destruct (nth_error (data c) n); congruence.
Qed.

Lemma genotype_err r name e : genotype r name = Err e -> e = KeyError name.
Proof. unfold genotype. destruct (find _ _); congruence. Qed.

Lemma combine_record_err_not_exit keep gf lf al g r e :
  combine_record keep gf lf al g r = Err e -> forall m, e <> SystemExit m.
Proof.
  unfold combine_record. rewrite length_app, Nat.eqb_refl; simpl.
  unfold make_calldata_tuple.
  destruct (first_dup [] _); simpl; [intros H; inversion H; subst; discriminate|].
  destruct (mapM _ _) as [ty|] eqn:Ht; simpl.
  2:{ intros H; inversion H; subst. apply mapM_err in Ht as [y [_ Hy]].
      destruct (str_in y (FORMAT g)); apply dict_get_err in Hy; subst; discriminate. }
  destruct (mapM _ (samples g)) as [news|] eqn:Hs; simpl; [discriminate|].
  intros H; inversion H; subst; clear H.
  apply mapM_err in Hs as [s [_ Hf]].
  destruct (if str_in (sample s) al then _ else _) as [ls|] eqn:Hls; simpl in Hf.
  - destruct (mapM (resolve_field (FORMAT g) (FORMAT r) s ls) _) as [d|] eqn:Hd;
      simpl in Hf; [discriminate Hf|].
    inversion Hf; subst. apply mapM_err in Hd as [[key b] [_ Hres]].
    unfold resolve_field in Hres. destruct b.
    + apply getitem_err in Hres; subst; discriminate.
    + destruct ls; [apply getitem_err in Hres; subst; discriminate | discriminate].
  - inversion Hf; subst. destruct (str_in (sample s) al); [|discriminate].
    destruct (genotype r (sample s)) eqn:Eg; simpl in Hls; [discriminate|].
    inversion Hls; subst. apply genotype_err in Eg; subst; discriminate.
Qed.

Lemma records_match_err_not_dup a b e :
  records_match a b = Err e -> e <> duplicate_exit.
Proof.
  unfold records_match, duplicate_exit.
  repeat match goal with
         | |- context [if negb ?c then _ else _] => destruct c; simpl
         end;
    try (intros H; inversion H; subst; discriminate).
  destruct (alts_match_cases (ALT a) (ALT b)) as [-> | ->];
    [discriminate | intros H; inversion H; subst; discriminate].
Qed.

Lemma merge_loop_not_dup keep gf lf al gts : forall lls buf,
  snd (merge_loop keep gf lf al gts lls buf) <> Some duplicate_exit.
Proof.
  induction gts as [|g gts IH]; intros lls buf; simpl; [discriminate|].
  destruct (refill buf lls) as [[r lls']|]; simpl; [|discriminate].
  destruct (skip_record g r); [apply IH|].
  destruct (records_match g r) as [u|e] eqn:Hm; simpl.
  - destruct (combine_record keep gf lf al g r) as [[out ty]|e] eqn:Ec; simpl.
    + specialize (IH lls' None).
      destruct (merge_loop keep gf lf al gts lls' None) as [evs ex]; exact IH.
    + intros H; inversion H; subst.
      exact (combine_record_err_not_exit _ _ _ _ _ _ _ Ec _ eq_refl).
  - intros H; inversion H; subst. exact (records_match_err_not_dup _ _ _ Hm eq_refl).
Qed.

Lemma unify_formats_err gtf llf e :
  unify_formats gtf llf = Err e ->
  exists k, e = SystemExit (String.append "ERROR: FORMAT field "
                              (String.append k " present in both VCFs")).
Proof.
  revert gtf; induction llf as [|[k v] rest IH]; intros gtf; simpl; [discriminate|].
  destruct (str_in k (keys gtf)); [intros H; inversion H; eauto | apply IH].
Qed.

(** No run ends with the exit of line 67 ("Duplicate FORMAT fields in the
    two VCFs"): its guard compares [len(a + b)] with [len(a) + len(b)]. *)
Theorem main_never_duplicate_exit keep gtr llr :
  snd (main keep gtr llr) <> Some duplicate_exit.
Proof.
  unfold main, duplicate_exit. destruct (Nat.eqb _ 0); [simpl; intros H; inversion H|].
  destruct (unify_formats (formats gtr) (formats llr)) as [gf|e] eqn:U.
  - pose proof (merge_loop_not_dup keep gf (formats llr) (reader_samples llr)
                  (records gtr) (records llr) None) as Hn.
    destruct (merge_loop _ _ _ _ _ _ _) as [evs ex]; exact Hn.
  - apply unify_formats_err in U as [k ->]. simpl. intros H.
    injection H as H. discriminate H.
Qed.

(** ** Each gt and ll record is paired at most once, in file order *)

Inductive subseq {A : Type} : list A -> list A -> Prop :=
| subseq_nil : subseq [] []
| subseq_skip x l1 l2 : subseq l1 l2 -> subseq l1 (x :: l2)
| subseq_take x l1 l2 : subseq l1 l2 -> subseq (x :: l1) (x :: l2).

Lemma subseq_nil_l {A} (l : list A) : subseq [] l.
Proof. induction l; constructor; assumption. Qed.

(** The records written, in order. *)
Fixpoint written (evs : list Event) : list (VcfRecord * list FormatInfo) :=
  match evs with
  | [] => []
  | WriteRecord r t :: evs' => (r, t) :: written evs'
  | WriteHeader _ _ :: evs' => written evs'
  end.

Definition opt_list {A} (o : option A) : list A :=
  match o with Some x => [x] | None => [] end.

Definition pair_written keep gf lf al (p : VcfRecord * VcfRecord)
    (w : VcfRecord * list FormatInfo) : Prop :=
  records_match (fst p) (snd p) = Ok tt /\ combine_record keep gf lf al (fst p) (snd p) = Ok w.

Lemma refill_stream buf lls r lls' :
  refill buf lls = Some (r, lls') -> opt_list buf ++ lls = r :: lls'.
Proof.
  destruct buf as [b|]; simpl.
  - intros H; inversion H; subst; reflexivity.
  - destruct lls as [|x l]; intros H; inversion H; subst; reflexivity.
Qed.

Lemma merge_loop_pairs keep gf lf al gts : forall lls buf,
  exists ps, subseq (map fst ps) gts /\ subseq (map snd ps) (opt_list buf ++ lls) /\
    Forall2 (pair_written keep gf lf al) ps (written (fst (merge_loop keep gf lf al gts lls buf))).
Proof.
  induction gts as [|g gts IH]; intros lls buf; simpl.
  - exists []; repeat split; [constructor | apply subseq_nil_l | constructor].
  - destruct (refill buf lls) as [[r lls']|] eqn:R;
      [|exists []; repeat split; [apply subseq_nil_l | apply subseq_nil_l | constructor]].
    rewrite (refill_stream _ _ _ _ R).
    destruct (skip_record g r).
    + destruct (IH lls' (Some r)) as (ps & H1 & H2 & H3).
      exists ps; repeat split; [constructor; exact H1 | exact H2 | exact H3].
    + destruct (records_match g r) as [[]|] eqn:Hm;
        [|exists []; repeat split; [apply subseq_nil_l | apply subseq_nil_l | constructor]].
      destruct (combine_record keep gf lf al g r) as [[out ty]|] eqn:Ec;
        [|exists []; repeat split; [apply subseq_nil_l | apply subseq_nil_l | constructor]].
      destruct (IH lls' None) as (ps & H1 & H2 & H3).
      destruct (merge_loop keep gf lf al gts lls' None) as [evs ex]; simpl in *.
      exists ((g, r) :: ps); simpl; repeat split.
      * constructor; exact H1.
      * constructor; exact H2.
      * constructor; [split; assumption | exact H3].
Qed.

(** The records a run writes are, one to one and in order, the
    combinations of pairs (g, r) that passed [records_match], where the
    g's form a subsequence of the gt records and the r's a subsequence of
    the ll records: no gt record and no ll record is used for two written
    records, and pairs never go back in either file. *)
Theorem main_written_pairs keep gtr llr :
  exists ps, subseq (map fst ps) (records gtr) /\ subseq (map snd ps) (records llr) /\
    Forall2 (pair_written keep (formats gtr ++ formats llr) (formats llr) (reader_samples llr))
      ps (written (fst (main keep gtr llr))).
Proof.
  unfold main. destruct (Nat.eqb _ 0);
    [exists []; repeat split; [apply subseq_nil_l | apply subseq_nil_l | constructor]|].
  destruct (unify_formats (formats gtr) (formats llr)) as [gf|] eqn:U;
    [|exists []; repeat split; [apply subseq_nil_l | apply subseq_nil_l | constructor]].
  apply unify_formats_ok in U; subst gf.
  destruct (merge_loop_pairs keep (formats gtr ++ formats llr) (formats llr) (reader_samples llr)
              (records gtr) (records llr) None) as (ps & H1 & H2 & H3).
  destruct (merge_loop _ _ _ _ _ _ _) as [evs ex]; simpl in *.
  exists ps; repeat split; assumption.
Qed.
